(** * EvoAgentX deployment script ([deploy.sh]): a shallow embedding

    The script is a straight-line bash program run under [set -e].  It is
    embedded as a computation in a small monad that threads the working
    directory (a finite map from file names to contents), records every
    [echo] and every external command in an event list, and stops at the
    first [exit] or failing command.

    Everything the script cannot decide on its own is read from a [World]:
    which tools are installed, what the operator answers at the prompt,
    what the container backend and [curl] reply, and what sed and curl do
    when the port argument turns line 42 into another sed script or line 98
    into a command with several arguments. *)

From Stdlib Require Import String Ascii List Bool NArith Lia.
From stdpp Require Import gmap strings list.

Open Scope string_scope.

(** ** Strings *)

(** [grep -q needle]: does [needle] occur somewhere in the text?  The needle
    used by the script has no newline, so a match in some line is the same as
    a match in the whole text. *)
Fixpoint occurs (needle hay : string) : bool :=
  if String.prefix needle hay then true
  else match hay with
       | EmptyString => false
       | String _ rest => occurs needle rest
       end.

(** [s/pat/rep/g] for a pattern without regular-expression operators: scan
    from the left; at every position where [pat] starts, emit [rep] and jump
    over the match; otherwise copy one character.  [skip] counts the
    characters of a match that are still to be jumped over. *)
Fixpoint subst_from (skip : nat) (pat rep s : string) : string :=
  match s with
  | EmptyString => EmptyString
  | String c rest =>
      match skip with
      | S k => subst_from k pat rep rest
      | O =>
          if String.prefix pat s
          then rep ++ subst_from (String.length pat - 1) pat rep rest
          else String c (subst_from 0 pat rep rest)
      end
  end.

Definition subst_all (pat rep s : string) : string := subst_from 0 pat rep s.

(** [join sep [c0; c1; ...]] is [c0 ++ sep ++ c1 ++ sep ++ ...]. *)
Fixpoint join (sep : string) (chunks : list string) : string :=
  match chunks with
  | [] => EmptyString
  | [c] => c
  | c :: more => c ++ sep ++ join sep more
  end.

(** [s] without its last character. *)
Fixpoint but_last (s : string) : string :=
  match s with
  | EmptyString => EmptyString
  | String c rest =>
      match rest with
      | EmptyString => EmptyString
      | String _ _ => String c (but_last rest)
      end
  end.

(** No match of [pat] starts inside [chunk], whether [chunk] ends the
    text or is followed by a match of [pat]. *)
Definition apart (pat chunk : string) : bool :=
  negb (occurs pat (chunk ++ but_last pat)).

(** [chunks] are the parts of a text between the matches of [pat]: no
    match starts inside a chunk that is followed by a match, and the last
    chunk contains none. *)
Fixpoint separated (pat : string) (chunks : list string) : bool :=
  match chunks with
  | [] => true
  | [c] => negb (occurs pat c)
  | c :: more => apart pat c && separated pat more
  end.

(** The chunks that a left-to-right scan for [pat] cuts a text into. *)
Fixpoint pieces_from (skip : nat) (pat s : string) : list string :=
  match s with
  | EmptyString => [EmptyString]
  | String c rest =>
      match skip with
      | S k => pieces_from k pat rest
      | O =>
          if String.prefix pat s
          then EmptyString :: pieces_from (String.length pat - 1) pat rest
          else match pieces_from 0 pat rest with
               | [] => [String c EmptyString]
               | p :: more => String c p :: more
               end
      end
  end.

Definition pieces (pat s : string) : list string := pieces_from 0 pat s.

(** Every character of [s] satisfies [p]. *)
Fixpoint all_chars (p : ascii -> bool) (s : string) : bool :=
  match s with
  | EmptyString => true
  | String c rest => p c && all_chars p rest
  end.

(** The characters of the default [IFS]: space, tab, newline. *)
Definition blank (c : ascii) : bool :=
  Ascii.eqb c " " || Ascii.eqb c "009" || Ascii.eqb c "010".

(** The characters that make a word a pattern for pathname expansion (the
    backslash escapes inside such a pattern). *)
Definition glob_char (c : ascii) : bool :=
  Ascii.eqb c "*" || Ascii.eqb c "?" || Ascii.eqb c "[" || Ascii.eqb c "092".

Definition glob_free (s : string) : bool :=
  all_chars (fun c => negb (glob_char c)) s.

(** A text that the shell passes on as one word when it is expanded
    without quotes: no word splitting, no pathname expansion. *)
Definition word_safe (s : string) : bool :=
  all_chars (fun c => negb (blank c) && negb (glob_char c)) s.

(** Word splitting of an unquoted expansion: the maximal runs of
    characters that are not blank. *)
Fixpoint words (s : string) : list string :=
  match s with
  | EmptyString => []
  | String c rest =>
      if blank c then words rest
      else match rest with
           | EmptyString => [String c EmptyString]
           | String c' _ =>
               if blank c' then String c EmptyString :: words rest
               else match words rest with
                    | w :: ws => String c w :: ws
                    | [] => [String c EmptyString]
                    end
           end
  end.

(** ** Exit statuses, commands, events *)

Inductive Status :=
| Succeeded
| Failed (code : positive).

(** The commands the script runs (shell builtins included). *)
Inductive Cmd :=
| CommandV (tool : string)            (* command -v tool &> /dev/null *)
| Cp (src dst : string)               (* cp src dst *)
| ReadP (prompt : string)             (* read -p prompt *)
| SedInPlace (pat rhs file : string)  (* sed -i.bak "s/pat/rhs/g" file *)
| ComposeBuild                        (* docker-compose build *)
| ComposeUp                           (* docker-compose up -d *)
| Sleep (seconds : nat)               (* sleep seconds *)
| ComposePsGrep (needle : string)     (* docker-compose ps | grep -q needle *)
| ComposePs                           (* docker-compose ps *)
| Curl (argv : list string).          (* curl -f argv... *)

(** What an observer of the terminal and of the process table sees. *)
Inductive Event :=
| Echo (line : string)      (* a line written by [echo] *)
| Exec (c : Cmd)            (* an external command is started *)
| Output (text : string).   (* standard output of an external command *)

(** ** The environment of a run *)

(** What the operator does at [read -p]. *)
Inductive Operator :=
| PressesEnter      (* read returns 0 *)
| PressesCtrlC      (* the shell is killed by SIGINT *)
| ClosesInput.      (* end of input: read returns 1 *)

Record Reply := { ok : bool; out : string }.

(** What a command that can write files does: its reply and the files of
    the working directory as it leaves them. *)
Record Effect := { eff_reply : Reply; eff_files : gmap string string }.

Record World := {
  has_docker : bool;                 (* command -v docker succeeds *)
  has_docker_compose : bool;         (* command -v docker-compose succeeds *)
  files0 : gmap string string;       (* regular files of the working directory *)
  operator : Operator;
  (* exit code with which a failing external command terminates *)
  failure_code : Cmd -> positive;
  (* sed -i.bak on a script whose replacement text contains a slash, a
     backslash or a newline, given the script and the files: such a text
     ends the s command early and what follows is run as further sed
     commands (w FILE, e COMMAND, ...), so sed can then write any file *)
  sed_other : string -> gmap string string -> Effect;
  (* pathname expansion of a word that contains *, ?, [ or a backslash *)
  pathnames : gmap string string -> string -> list string;
  (* what the backend answers in this run *)
  build : Reply;                     (* docker-compose build *)
  up : Reply;                        (* docker-compose up -d *)
  ps_poll : Reply;                   (* docker-compose ps, at the poll *)
  ps_report : Reply;                 (* docker-compose ps, in the report *)
  (* curl -f with the given arguments, in the given files *)
  curl : list string -> gmap string string -> Effect
}.

(** ** The shell monad *)

Record Outcome (A : Type) := {
  trace : list Event;
  files : gmap string string;
  value : A + N                      (* inr n: the shell has exited with n *)
}.
Arguments trace {A} _.
Arguments files {A} _.
Arguments value {A} _.

Definition Sh (A : Type) : Type := gmap string string -> Outcome A.

Definition ret {A} (a : A) : Sh A :=
  fun fs => {| trace := []; files := fs; value := inl a |}.

Definition bind {A B} (m : Sh A) (k : A -> Sh B) : Sh B :=
  fun fs =>
    match m fs with
    | {| trace := tr; files := fs1; value := inl a |} =>
        match k a fs1 with
        | {| trace := tr'; files := fs2; value := v |} =>
            {| trace := tr ++ tr'; files := fs2; value := v |}
        end
    | {| trace := tr; files := fs1; value := inr n |} =>
        {| trace := tr; files := fs1; value := inr n |}
    end.

Declare Scope sh_scope.
Delimit Scope sh_scope with sh.
Notation "x <- m ;; k" := (bind m (fun x => k))
  (at level 100, m at next level, right associativity) : sh_scope.
Notation "m ;; k" := (bind m (fun _ => k))
  (at level 100, right associativity) : sh_scope.
Open Scope sh_scope.

Definition emit (e : Event) : Sh unit :=
  fun fs => {| trace := [e]; files := fs; value := inl tt |}.

Definition echo (line : string) : Sh unit := emit (Echo line).

Definition exit {A} (n : N) : Sh A :=
  fun fs => {| trace := []; files := fs; value := inr n |}.

(** [set -e]: a simple command that fails ends the script with its status. *)
Definition errexit (st : Status) : Sh unit :=
  match st with
  | Succeeded => ret tt
  | Failed c => exit (Npos c)
  end.

Definition status_of (w : World) (c : Cmd) (success : bool) : Status :=
  if success then Succeeded else Failed (failure_code w c).

(** [[ -f path ]] *)
Definition test_f (path : string) : Sh bool :=
  fun fs => {| trace := []; files := fs;
               value := inl (match fs !! path with
                             | Some _ => true
                             | None => false
                             end) |}.

(** The two tools the script looks for. *)
Definition installed (w : World) (tool : string) : bool :=
  if String.eqb tool "docker" then has_docker w
  else if String.eqb tool "docker-compose" then has_docker_compose w
  else false.

(** [command -v tool &> /dev/null], used as a condition. *)
Definition command_v (w : World) (tool : string) : Sh bool :=
  emit (Exec (CommandV tool));; ret (installed w tool).

(** [cp src dst]: fails when [src] does not exist. *)
Definition cp (w : World) (src dst : string) : Sh unit :=
  emit (Exec (Cp src dst));;
  fun fs =>
    match fs !! src with
    | Some c => {| trace := []; files := <[dst := c]> fs; value := inl tt |}
    | None => errexit (Failed (failure_code w (Cp src dst))) fs
    end.

(** [read -p prompt] *)
Definition read_p (w : World) (prompt : string) : Sh unit :=
  emit (Exec (ReadP prompt));;
  match operator w with
  | PressesEnter => ret tt
  | PressesCtrlC => exit 130
  | ClosesInput => exit 1
  end.

(** The characters that end or escape the replacement text of an [s]
    command.  A replacement text without them is taken literally, except
    that [&] stands for the matched text. *)
Definition sed_meta (c : ascii) : bool :=
  Ascii.eqb c "/"          (* the delimiter of the s command *)
  || Ascii.eqb c "092"     (* backslash *)
  || Ascii.eqb c "010".    (* newline *)

Definition sed_plain (rhs : string) : bool :=
  all_chars (fun c => negb (sed_meta c)) rhs.

(** A replacement text that sed takes letter for letter. *)
Definition sed_literal (rhs : string) : bool :=
  all_chars (fun c => negb (sed_meta c) && negb (Ascii.eqb c "&")) rhs.

Fixpoint expand_amp (matched rhs : string) : string :=
  match rhs with
  | EmptyString => EmptyString
  | String c rest =>
      (if Ascii.eqb c "&" then matched else String c EmptyString)
        ++ expand_amp matched rest
  end.

(** The script sed is given, after the shell has put [rhs] into the
    double-quoted word. *)
Definition sed_script (pat rhs : string) : string :=
  "s/" ++ pat ++ "/" ++ rhs ++ "/g".

(** [sed -i.bak "s/pat/rhs/g" file], for a [pat] without slash and without
    regular-expression operators.  When [rhs] has no slash, backslash or
    newline the script is one substitution: sed fails if the file is
    missing, and otherwise replaces every match and keeps the old contents
    in [file.bak].  For any other [rhs] the world tells what sed does. *)
Definition sed_i_bak (w : World) (pat rhs file : string) : Sh unit :=
  emit (Exec (SedInPlace pat rhs file));;
  fun fs =>
    if sed_plain rhs
    then match fs !! file with
         | None =>
             errexit (Failed (failure_code w (SedInPlace pat rhs file))) fs
         | Some old =>
             {| trace := [];
                files := <[file := subst_all pat (expand_amp pat rhs) old]>
                           (<[file ++ ".bak" := old]> fs);
                value := inl tt |}
         end
    else match sed_other w (sed_script pat rhs) fs with
         | {| eff_reply := r; eff_files := fs' |} =>
             {| trace := [Output (out r)];
                files := fs';
                value := if ok r then inl tt
                         else inr (Npos (failure_code w
                                           (SedInPlace pat rhs file))) |}
         end.

(** An external command whose output goes to the terminal, run as a simple
    command (so [set -e] applies). *)
Definition external (w : World) (c : Cmd) (r : Reply) : Sh unit :=
  emit (Exec c);; emit (Output (out r));; errexit (status_of w c (ok r)).

(** A [docker-compose] subcommand. *)
Definition compose (w : World) (c : Cmd) (backend : Reply) : Sh unit :=
  external w c backend.

(** [docker-compose ps | grep -q needle], used as a condition: the status
    is grep's and nothing is printed. *)
Definition ps_grep_q (w : World) (needle : string) : Sh bool :=
  emit (Exec (ComposePsGrep needle));;
  ret (occurs needle (out (ps_poll w))).

(** The arguments an unquoted [text] gives: it is split into words, and a
    word with pattern characters undergoes pathname expansion, which
    [expansion] does in the directory [fs]. *)
Definition argv (expansion : gmap string string -> string -> list string)
    (fs : gmap string string) (text : string) : list string :=
  List.flat_map
    (fun wd => if glob_free wd then [wd] else expansion fs wd)
    (words text).

(** [curl -f $text], on the left of [||]; [text] is not quoted.  With a
    single argument curl fetches that URL and writes to standard output
    only; with several, some of them may be options (-o FILE, ...) and the
    world tells which files curl leaves. *)
Definition curl_f (w : World) (text : string) : Sh bool :=
  fun fs =>
    match curl w (argv (pathnames w) fs text) fs with
    | {| eff_reply := r; eff_files := fs' |} =>
        {| trace := [Exec (Curl (argv (pathnames w) fs text));
                     Output (out r)];
           files := match argv (pathnames w) fs text with
                    | [_] => fs
                    | _ => fs'
                    end;
           value := inl (ok r) |}
    end.

(** ** The script *)

Definition DEFAULT_PORT : string := "88888".
Definition DEFAULT_DOMAIN : string :=
  "evoagentx.evoagentx.naranja.lucienfc.eu.org".

(** [${n:-default}]: the default is used when the positional parameter is
    unset or null (the empty string). *)
Definition or_default (param : option string) (default : string) : string :=
  match param with
  | None => default
  | Some EmptyString => default
  | Some v => v
  end.

Record DeploymentConfig := { PORT : string; DOMAIN : string }.

(** Lines 13-14; [args] are the positional parameters [$1], [$2], ... *)
Definition resolve (args : list string) : DeploymentConfig :=
  {| PORT := or_default (args !! 0%nat) DEFAULT_PORT;
     DOMAIN := or_default (args !! 1%nat) DEFAULT_DOMAIN |}.

Definition banner (cfg : DeploymentConfig) : Sh unit :=
  echo "🚀 Deploying EvoAgentX...";;
  echo ("📌 Port: " ++ PORT cfg);;
  echo ("🌐 Domain: " ++ DOMAIN cfg).

Definition docker_missing : string :=
  "❌ Docker is not installed. Please install Docker first.".
Definition compose_missing : string :=
  "❌ Docker Compose is not installed. Please install Docker Compose first.".

(** Lines 20-29: check if Docker and Docker Compose are installed. *)
Definition check_tools (w : World) : Sh unit :=
  d <- command_v w "docker";;
  (if negb d
   then echo docker_missing;;
        exit 1
   else ret tt);;
  c <- command_v w "docker-compose";;
  (if negb c
   then echo compose_missing;;
        exit 1
   else ret tt).

Definition secrets : string := ".env".
Definition template : string := ".env.example".
Definition pause_prompt : string :=
  "   Press Enter to continue or Ctrl+C to cancel and update .env file...".

(** Lines 31-38: create .env file if it doesn't exist. *)
Definition ensure_env (w : World) : Sh unit :=
  present <- test_f secrets;;
  if negb present
  then echo "📄 Creating .env file from .env.example...";;
       cp w template secrets;;
       echo "⚠️  Please update the .env file with your API keys before continuing.";;
       echo "   Required keys: OPENAI_API_KEY, ANTHROPIC_API_KEY, VOYAGE_API_KEY";;
       read_p w pause_prompt
  else ret tt.

Definition descriptor : string := "docker-compose.yml".
Definition mapping : string := "8000:8000".

(** Lines 40-42: update docker-compose.yml with custom port. *)
Definition configure_port (w : World) (cfg : DeploymentConfig) : Sh unit :=
  echo ("⚙️  Configuring application to run on port " ++ PORT cfg ++ "...");;
  sed_i_bak w mapping (PORT cfg ++ ":8000") descriptor.

(** Lines 44-52: build and start containers, then wait. *)
Definition build_and_start (w : World) : Sh unit :=
  echo "🔨 Building Docker images...";;
  compose w ComposeBuild (build w);;
  echo "🚀 Starting containers...";;
  compose w ComposeUp (up w);;
  echo "⏳ Waiting for services to be ready...";;
  emit (Exec (Sleep 10)).

Definition poll_failure : string :=
  "❌ Some services failed to start. Check logs with: docker-compose logs".

(** Lines 54-61: check if services are running. *)
Definition check_services (w : World) : Sh unit :=
  echo "🔍 Checking service status...";;
  running <- ps_grep_q w "Up";;
  if running
  then echo "✅ All services are running!"
  else echo poll_failure;;
       exit 1.

Definition access_urls (cfg : DeploymentConfig) : list string :=
  [ "   - API: http://localhost:" ++ PORT cfg ++ "/";
    "   - API Documentation: http://localhost:" ++ PORT cfg ++ "/docs";
    "   - ReDoc: http://localhost:" ++ PORT cfg ++ "/redoc";
    "   - Health Check: http://localhost:" ++ PORT cfg ++ "/" ].

Definition hints : list string :=
  [ "";
    "🔧 Management Commands:";
    "   - View logs: docker-compose logs -f";
    "   - Stop services: docker-compose down";
    "   - Restart services: docker-compose restart";
    "   - Rebuild and restart: docker-compose up -d --build";
    "";
    "⚠️  Important Notes:";
    "   1. The application uses MongoDB and Redis. Data is persisted in Docker volumes.";
    "   2. Default MongoDB credentials: admin/admin123";
    "   3. Application database: evoagentx";
    "   4. Update the .env file with your actual API keys for full functionality.";
    "";
    "📝 For domain setup with HTTPS (optional):";
    "   Edit the nginx.conf file and set up SSL certificates in the ssl/ directory.";
    "   Then uncomment the nginx service in docker-compose.yml.";
    "===============================================" ].

Fixpoint echo_all (lines : list string) : Sh unit :=
  match lines with
  | [] => ret tt
  | l :: more => echo l;; echo_all more
  end.

(** Lines 63-93: display access information. *)
Definition report (w : World) (cfg : DeploymentConfig) : Sh unit :=
  echo "";;
  echo "===============================================";;
  echo "🎉 EvoAgentX Deployment Complete!";;
  echo "===============================================";;
  echo "";;
  echo "📊 Service Status:";;
  compose w ComposePs (ps_report w);;
  echo "";;
  echo "🌐 Access URLs:";;
  echo_all (access_urls cfg);;
  echo_all hints.

Definition health_url (cfg : DeploymentConfig) : string :=
  "http://localhost:" ++ PORT cfg ++ "/".
Definition health_warning : string :=
  "⚠️  API health check failed (may still be starting up)".

(** Lines 95-98: a simple health check. *)
Definition health_check (w : World) (cfg : DeploymentConfig) : Sh unit :=
  echo "";;
  echo "🩺 Testing API health...";;
  healthy <- curl_f w (health_url cfg);;
  if healthy then ret tt else echo health_warning.

Definition deploy (w : World) (args : list string) : Sh unit :=
  let cfg := resolve args in
  banner cfg;;
  check_tools w;;
  ensure_env w;;
  configure_port w cfg;;
  build_and_start w;;
  check_services w;;
  report w cfg;;
  health_check w cfg.

(** ** Running the script *)

Record Result := {
  exit_status : N;
  final_files : gmap string string;
  events : list Event
}.

Definition run (w : World) (args : list string) : Result :=
  match deploy w args (files0 w) with
  | {| trace := tr; files := fs; value := v |} =>
      {| exit_status := match v with inl _ => 0%N | inr n => n end;
         final_files := fs;
         events := tr |}
  end.

(** ** Observations on a run *)

(** The steps of the deployment sequence a command belongs to. *)
Inductive Step :=
| Tooling | Copy | Pause | Rewrite | Build | Start | Settle | Poll
| Listing | Probe.

Definition step_of (c : Cmd) : Step :=
  match c with
  | CommandV _ => Tooling
  | Cp _ _ => Copy
  | ReadP _ => Pause
  | SedInPlace _ _ _ => Rewrite
  | ComposeBuild => Build
  | ComposeUp => Start
  | Sleep _ => Settle
  | ComposePsGrep _ => Poll
  | ComposePs => Listing
  | Curl _ => Probe
  end.

Definition Step_eqb (a b : Step) : bool :=
  match a, b with
  | Tooling, Tooling | Copy, Copy | Pause, Pause | Rewrite, Rewrite
  | Build, Build | Start, Start | Settle, Settle | Poll, Poll
  | Listing, Listing | Probe, Probe => true
  | _, _ => false
  end.

Definition is_step (s : Step) (e : Event) : bool :=
  match e with
  | Exec c => Step_eqb (step_of c) s
  | _ => false
  end.

(** The run starts a command of step [s]. *)
Definition performs (s : Step) (tr : list Event) : bool :=
  existsb (is_step s) tr.

(** How many commands of step [s] the run starts. *)
Definition times (s : Step) (tr : list Event) : nat :=
  length (List.filter (is_step s) tr).

(** The events that precede the first command of step [s]. *)
Fixpoint before (s : Step) (tr : list Event) : list Event :=
  match tr with
  | [] => []
  | e :: more => if is_step s e then [] else e :: before s more
  end.

(** Whether a command may create or overwrite [path].  A sed script that
    is not one plain substitution and a curl with several arguments may
    write any file. *)
Definition may_write (c : Cmd) (path : string) : bool :=
  match c with
  | Cp _ dst => String.eqb path dst
  | SedInPlace pat rhs file =>
      if sed_plain pat && sed_plain rhs
      then String.eqb path file || String.eqb path (file ++ ".bak")
      else true
  | Curl [_] => false
  | Curl _ => true
  | _ => false
  end.

(** A port that line 42 and line 98 use as it stands: sed reads it as
    replacement text and the shell passes the URL on as one word. *)
Definition tame (port : string) : bool := sed_plain port && word_safe port.

(** The lines written by the script itself. *)
Fixpoint echoed (tr : list Event) : list string :=
  match tr with
  | [] => []
  | Echo l :: more => l :: echoed more
  | _ :: more => echoed more
  end.

(** The readiness poll was made and [grep -q "Up"] found nothing. *)
Definition not_ready (w : World) (r : Result) : bool :=
  performs Poll (events r) && negb (occurs "Up" (out (ps_poll w))).

(** The same world with another answer to the health probe: curl gives
    [reply] and, where it can write files, turns the files into
    [writes files]. *)
Definition with_curl (w : World) (reply : Reply)
    (writes : gmap string string -> gmap string string) : World :=
  {| has_docker := has_docker w;
     has_docker_compose := has_docker_compose w;
     files0 := files0 w;
     operator := operator w;
     failure_code := failure_code w;
     sed_other := sed_other w;
     pathnames := pathnames w;
     build := build w;
     up := up w;
     ps_poll := ps_poll w;
     ps_report := ps_report w;
     curl := fun _ fs => {| eff_reply := reply; eff_files := writes fs |} |}.

(** ** Symbolic execution of the script *)

Ltac sh_eval :=
  lazy beta iota zeta delta
    [run deploy banner check_tools ensure_env configure_port build_and_start
     check_services report health_check command_v cp read_p sed_i_bak
     compose external ps_grep_q curl_f test_f echo emit exit
     errexit status_of ret bind installed trace files value
     exit_status final_files events echo_all access_urls hints with_curl
     health_url
     has_docker has_docker_compose files0 operator failure_code sed_other
     pathnames build up ps_poll ps_report curl
     String.eqb Ascii.eqb Bool.eqb negb app secrets template descriptor];
  cbn [ok out eff_reply eff_files PORT DOMAIN].

(** Evaluation of the observations on an explicit event list. *)
Ltac sh_obs :=
  cbv [performs times before echoed existsb List.filter is_step step_of
       Step_eqb orb length].

(** The health probe.  A word-safe text is its own single argument
    ([argv_safe], proved below); any other text gives no, one or several
    arguments. *)
Ltac sh_probe argv_safe cu :=
  match goal with
  | |- context [argv ?w ?fs ?t] =>
      let E := fresh "Hsafe" in
      destruct (word_safe t) eqn:E;
      [ rewrite !(argv_safe w fs t E) by discriminate
      | let av := fresh "av" in
        let Eav := fresh "Hav" in
        remember (argv w fs t) as av eqn:Eav;
        destruct av as [| ? [| ? ?]] ];
      sh_eval;
      match goal with
      | |- context [cu ?a ?f] =>
          destruct (cu a f) as [[[] ?] ?] eqn:?; sh_eval
      end
  end.

(** From the build to the end of the script. *)
Ltac sh_backend argv_safe bd u pp pr cu :=
  destruct bd as [[] ?]; sh_eval;
  [ destruct u as [[] ?]; sh_eval;
    [ let pout := fresh "pout" in
      destruct pp as [? pout]; sh_eval;
      destruct (occurs "Up" pout) eqn:?; sh_eval;
      [ destruct pr as [[] ?]; sh_eval; [ sh_probe argv_safe cu | ] | ]
    | ]
  | ].

(** From the rewrite step to the end of the script. *)
Ltac sh_rest argv_safe fs0 so bd u pp pr cu :=
  match goal with
  | |- context [if sed_plain ?r then _ else _] =>
      destruct (sed_plain r) eqn:?; sh_eval;
      [ rewrite ?lookup_insert_ne by done;
        destruct (fs0 !! "docker-compose.yml") eqn:?; sh_eval;
        [ sh_backend argv_safe bd u pp pr cu | ]
      | match goal with
        | |- context [so ?s ?fs] =>
            destruct (so s fs) as [[[] ?] ?] eqn:?; sh_eval;
            [ sh_backend argv_safe bd u pp pr cu | ]
        end ]
  end.

(** One goal per path through the script. *)
Ltac sh_paths_with argv_safe w :=
  let hd := fresh "hd" in let hc := fresh "hc" in let fs0 := fresh "fs0" in
  let op := fresh "op" in let fc := fresh "fc" in let so := fresh "so" in
  let pn := fresh "pn" in
  let bd := fresh "bd" in let u := fresh "u" in let pp := fresh "pp" in
  let pr := fresh "pr" in let cu := fresh "cu" in
  destruct w as [hd hc fs0 op fc so pn bd u pp pr cu]; sh_eval;
  destruct hd; sh_eval;
  [ destruct hc; sh_eval;
    [ destruct (fs0 !! ".env") eqn:?; sh_eval;
      [ sh_rest argv_safe fs0 so bd u pp pr cu
      | destruct (fs0 !! ".env.example") eqn:?; sh_eval;
        [ destruct op; sh_eval;
          [ sh_rest argv_safe fs0 so bd u pp pr cu | | ]
        | ] ]
    | ]
  | ].

(** One goal per path of the run [r] of the world [w], which is evaluated
    once and then put in place everywhere. *)
Ltac sh_run argv_safe w r :=
  let x := fresh "r" in
  let E := fresh "Hrun" in
  remember r as x eqn:E; revert E;
  sh_paths_with argv_safe w; intros ->;
  cbn [exit_status final_files events].

(** Membership in an explicit list: the element is looked for as it is
    written, and up to computation when that fails. *)
Ltac sh_in :=
  cbv [In];
  first
    [ repeat lazymatch goal with
             | |- ?a = ?b \/ _ =>
                 first [constr_eq a b; left; exact eq_refl | right]
             end;
      exact eq_refl
    | repeat (first [left; exact eq_refl | right]);
      exact eq_refl ].

(** ** Sample worlds *)

Definition nl : string := String "010" EmptyString.

(** The text of a descriptor around its single port mapping. *)
Definition sample_chunks : list string :=
  [ "services:" ++ nl ++ "  app:" ++ nl ++ "    ports:" ++ nl ++ "      - ";
    nl ].

Definition sample_descriptor : string := join mapping sample_chunks.

(** A working directory holding the descriptor [d], the template, and the
    secrets file when [with_env] is set. *)
Definition sample_files (with_env : bool) (d : string) : gmap string string :=
  let base : gmap string string :=
    <[".env.example" := "OPENAI_API_KEY="]> (<["docker-compose.yml" := d]> ∅) in
  if with_env then <[".env" := "OPENAI_API_KEY=sk-1"]> base else base.

(** A world in which build and start succeed; [poll] is what
    [docker-compose ps] prints at the readiness poll and [healthy] tells
    whether the health probe succeeds. *)
Definition sample_world (docker compose : bool) (fs : gmap string string)
    (poll : string) (healthy : bool) : World :=
  {| has_docker := docker;
     has_docker_compose := compose;
     files0 := fs;
     operator := PressesEnter;
     (* sed ends with 2 when it cannot read its input and with 1 when it
        rejects its script *)
     failure_code := fun c => match c with
                              | SedInPlace _ rhs _ =>
                                  if sed_plain rhs then 2%positive
                                  else 1%positive
                              | _ => 1%positive
                              end;
     (* a script that sed rejects: nothing is written *)
     sed_other := fun _ fs =>
       {| eff_reply := {| ok := false; out := "" |}; eff_files := fs |};
     (* no file name matches a pattern: the word is left as it is *)
     pathnames := fun _ wd => [wd];
     build := {| ok := true; out := "" |};
     up := {| ok := true; out := "" |};
     ps_poll := {| ok := true; out := poll |};
     ps_report := {| ok := true; out := poll |};
     curl := fun _ fs =>
       {| eff_reply := {| ok := healthy; out := "" |}; eff_files := fs |} |}.

Definition w_ready : World :=
  sample_world true true (sample_files true sample_descriptor)
    "evoagentx-app   Up   0.0.0.0:8000->8000/tcp" true.

Definition w_first_run : World :=
  sample_world true true (sample_files false sample_descriptor)
    "evoagentx-app   Up   0.0.0.0:8000->8000/tcp" true.

Definition w_down : World :=
  sample_world true true (sample_files true sample_descriptor)
    "evoagentx-app   Exit 1" true.

Definition w_no_compose : World :=
  sample_world true false (sample_files false sample_descriptor) "" true.

Definition w_other_mapping : World :=
  sample_world true true (sample_files true "      - 3000:3000")
    "evoagentx-app   Up" true.

Definition w_two_mappings : World :=
  sample_world true true (sample_files true "a 8000:8000 b 8000:8000 c")
    "evoagentx-app   Up" true.

(** ** Observations and worlds for whole-run properties *)




(** The world of a later run: the same environment, with the files the
    run [r] has left. *)
Definition after (w : World) (r : Result) : World :=
  {| has_docker := has_docker w;
     has_docker_compose := has_docker_compose w;
     files0 := final_files r;
     operator := operator w;
     failure_code := failure_code w;
     sed_other := sed_other w;
     pathnames := pathnames w;
     build := build w;
     up := up w;
     ps_poll := ps_poll w;
     ps_report := ps_report w;
     curl := curl w |}.

(** The same world with another operator at the prompt. *)
Definition with_operator (w : World) (op : Operator) : World :=
  {| has_docker := has_docker w;
     has_docker_compose := has_docker_compose w;
     files0 := files0 w;
     operator := op;
     failure_code := failure_code w;
     sed_other := sed_other w;
     pathnames := pathnames w;
     build := build w;
     up := up w;
     ps_poll := ps_poll w;
     ps_report := ps_report w;
     curl := curl w |}.

(** The same world in which the backend command of step [s] fails. *)
Definition failing (w : World) (s : Step) : World :=
  let broken (orig : Reply) (mine : Step) :=
    if Step_eqb s mine then {| ok := false; out := "error" |} else orig in
  {| has_docker := has_docker w;
     has_docker_compose := has_docker_compose w;
     files0 := files0 w;
     operator := operator w;
     failure_code := failure_code w;
     sed_other := sed_other w;
     pathnames := pathnames w;
     build := broken (build w) Build;
     up := broken (up w) Start;
     ps_poll := ps_poll w;
     ps_report := broken (ps_report w) Listing;
     curl := curl w |}.

Definition w_no_descriptor : World :=
  sample_world true true
    (<[".env" := "OPENAI_API_KEY=sk-1"]> (∅ : gmap string string))
    "evoagentx-app   Up" true.

(** One service has exited and another one is up. *)
Definition w_partly_up : World :=
  sample_world true true (sample_files true sample_descriptor)
    ("evoagentx-mongo   Exit 1" ++ nl ++ "evoagentx-app   Up") true.


(** ** Worlds with a port that is more than a number *)

(** A port that ends the substitution of line 42 and adds a [w] command:
    the sed script becomes [s/8000:8000/1/;w .env], then a line that is a
    comment. *)
Definition injected_port : string := "1/;w .env" ++ nl ++ "#".

(** The same world with sed's behaviour on other scripts set to [f]. *)
Definition with_sed (w : World)
    (f : string -> gmap string string -> Effect) : World :=
  {| has_docker := has_docker w;
     has_docker_compose := has_docker_compose w;
     files0 := files0 w;
     operator := operator w;
     failure_code := failure_code w;
     sed_other := f;
     pathnames := pathnames w;
     build := build w;
     up := up w;
     ps_poll := ps_poll w;
     ps_report := ps_report w;
     curl := curl w |}.

(** What sed does with the script of [injected_port].  The file of the [w]
    command is opened, and so emptied, before any input is read.  On a
    descriptor with at most one mapping per line the first match of every
    line becomes "1", the result goes to the descriptor and, by the [w]
    command, to [.env]; the backup keeps the old text.  Without a
    descriptor sed fails and leaves [.env] empty.  Any other script is
    reported as an error. *)
Definition injected_sed (script : string) (fs : gmap string string) : Effect :=
  if String.eqb script (sed_script mapping (injected_port ++ ":8000"))
  then match fs !! descriptor with
       | Some d =>
           {| eff_reply := {| ok := true; out := "" |};
              eff_files :=
                <[secrets := subst_all mapping "1" d]>
                  (<[descriptor := subst_all mapping "1" d]>
                     (<[descriptor ++ ".bak" := d]> fs)) |}
       | None =>
           {| eff_reply := {| ok := false; out := "" |};
              eff_files := <[secrets := ""]> fs |}
       end
  else {| eff_reply := {| ok := false; out := "" |}; eff_files := fs |}.

Definition w_injected : World := with_sed w_ready injected_sed.

(** A port with blanks: line 98 becomes
    [curl -f http://localhost:18080 -o out.txt -H x:/]. *)
Definition split_port : string := "18080 -o out.txt -H x:".

(** * Properties of the script *)

(** ** Global substitution on strings *)

Lemma append_nil (t : string) : EmptyString ++ t = t.
Proof. reflexivity. Qed.

Lemma append_cons (a : ascii) (s t : string) :
  String a s ++ t = String a (s ++ t).
Proof. reflexivity. Qed.

Lemma prefix_empty (s : string) : String.prefix EmptyString s = true.
Proof. destruct s; reflexivity. Qed.

Lemma prefix_app (pat t : string) : String.prefix pat (pat ++ t) = true.
Proof.
  induction pat as [| a p IH]; [apply prefix_empty |].
  rewrite append_cons. cbn [String.prefix].
  destruct (ascii_dec a a); [assumption | congruence].
Qed.

Lemma prefix_app_long (pat y z : string) :
  String.length pat <= String.length y ->
  String.prefix pat (y ++ z) = String.prefix pat y.
Proof.
  revert y. induction pat as [| a p IH]; intros y H.
  - rewrite !prefix_empty. reflexivity.
  - destruct y as [| b y]; cbn [String.length] in H; [lia |].
    rewrite append_cons. cbn [String.prefix].
    destruct (ascii_dec a b); [apply IH; lia | reflexivity].
Qed.

Lemma occurs_cons_false (pat : string) (a : ascii) (s : string) :
  occurs pat (String a s) = false ->
  String.prefix pat (String a s) = false /\ occurs pat s = false.
Proof.
  cbn [occurs]. destruct (String.prefix pat (String a s)); [discriminate | auto].
Qed.

Lemma length_append (a b : string) :
  String.length (a ++ b) = String.length a + String.length b.
Proof.
  induction a as [| c a IH]; [reflexivity |].
  rewrite append_cons. cbn [String.length]. now rewrite IH.
Qed.

Lemma append_assoc (a b c : string) : (a ++ b) ++ c = a ++ (b ++ c).
Proof.
  induction a as [| x a IH]; [reflexivity |].
  rewrite !append_cons. now rewrite IH.
Qed.

Lemma but_last_snoc (pat : string) :
  pat <> EmptyString ->
  exists l, pat = but_last pat ++ String l EmptyString.
Proof.
  induction pat as [| a p IH]; intros H; [congruence |].
  destruct p as [| b p]; [exists a; reflexivity |].
  destruct IH as [l Hl]; [discriminate |].
  exists l. cbn [but_last]. rewrite append_cons. f_equal. exact Hl.
Qed.

Lemma length_but_last (pat : string) :
  String.length (but_last pat) = String.length pat - 1.
Proof.
  induction pat as [| a p IH]; [reflexivity |].
  destruct p as [| b p]; [reflexivity |].
  cbn [but_last String.length] in *. lia.
Qed.

Lemma apart_no_match_inside (pat : string) (a : ascii) (c t : string) :
  pat <> EmptyString ->
  apart pat (String a c) = true ->
  String.prefix pat (String a c ++ pat ++ t) = false.
Proof.
  intros Hne H. unfold apart in H. apply negb_true_iff in H.
  rewrite append_cons in H. apply occurs_cons_false in H as [Hp _].
  rewrite <- append_cons in Hp.
  destruct (but_last_snoc pat Hne) as [l Hl].
  rewrite Hl at 2.
  rewrite (append_assoc (but_last pat)), <- (append_assoc (String a c)).
  rewrite prefix_app_long; [exact Hp |].
  rewrite length_append, length_but_last. cbn [String.length].
  destruct pat; [congruence | cbn [String.length]; lia].
Qed.

Lemma subst_skip (pat rep u t : string) :
  subst_from (String.length u) pat rep (u ++ t) = subst_from 0 pat rep t.
Proof.
  induction u as [| a u IH]; [reflexivity |].
  rewrite append_cons. cbn [String.length subst_from]. assumption.
Qed.

Section Substitution.
Variables pat rep : string.
Hypothesis pat_nonempty : pat <> EmptyString.

Lemma subst_absent (s : string) :
  occurs pat s = false -> subst_all pat rep s = s.
Proof.
  unfold subst_all. induction s as [| a s IH]; intros H; [reflexivity |].
  apply occurs_cons_false in H as [Hp Ho].
  cbn [subst_from]. rewrite Hp, (IH Ho). reflexivity.
Qed.

Lemma subst_match (t : string) :
  subst_from 0 pat rep (pat ++ t) = rep ++ subst_from 0 pat rep t.
Proof.
  pose proof (prefix_app pat t) as Hp.
  destruct pat as [| p0 p]; [congruence |].
  rewrite append_cons in *. cbn [subst_from]. rewrite Hp. f_equal.
  replace (String.length (String p0 p) - 1) with (String.length p)
    by (cbn [String.length]; lia).
  apply subst_skip.
Qed.

Lemma subst_chunk (c t : string) :
  apart pat c = true ->
  subst_from 0 pat rep (c ++ pat ++ t) = c ++ rep ++ subst_from 0 pat rep t.
Proof.
  induction c as [| a c IH]; intros H.
  - apply subst_match.
  - pose proof (apart_no_match_inside pat a c t pat_nonempty H) as Hp.
    rewrite !append_cons in *. cbn [subst_from]. rewrite Hp. f_equal.
    apply IH. unfold apart in *. apply negb_true_iff in H.
    rewrite append_cons in H.
    apply occurs_cons_false in H as [_ Ho]. now rewrite Ho.
Qed.

(** The chunks between the matches are kept and every separator [pat]
    becomes [rep]. *)
Lemma subst_join (chunks : list string) :
  separated pat chunks = true ->
  subst_all pat rep (join pat chunks) = join rep chunks.
Proof.
  unfold subst_all.
  induction chunks as [| c more IH]; intros H; [reflexivity |].
  destruct more as [| c' more].
  - cbn [join separated] in *. apply negb_true_iff in H.
    now apply subst_absent.
  - change (separated pat (c :: c' :: more))
      with (apart pat c && separated pat (c' :: more)) in H.
    apply andb_true_iff in H as [Hc Hmore].
    change (join pat (c :: c' :: more))
      with (c ++ pat ++ join pat (c' :: more)).
    change (join rep (c :: c' :: more))
      with (c ++ rep ++ join rep (c' :: more)).
    rewrite subst_chunk by assumption. now rewrite IH.
Qed.
End Substitution.

Lemma prefix_split (pat s : string) :
  String.prefix pat s = true -> exists t, s = pat ++ t.
Proof.
  revert s. induction pat as [| a p IH]; intros s H.
  - exists s. reflexivity.
  - destruct s as [| b s]; [discriminate |]. cbn [String.prefix] in H.
    destruct (ascii_dec a b) as [-> |]; [| discriminate].
    destruct (IH s H) as [t ->]. exists t. reflexivity.
Qed.

Lemma pieces_skip (pat u t : string) :
  pieces_from (String.length u) pat (u ++ t) = pieces_from 0 pat t.
Proof.
  induction u as [| a u IH]; [reflexivity |].
  rewrite append_cons. cbn [String.length pieces_from]. assumption.
Qed.

Lemma apart_cons (pat : string) (a : ascii) (c t : string) :
  pat <> EmptyString ->
  String.prefix pat (String a (c ++ pat ++ t)) = false ->
  apart pat c = true ->
  apart pat (String a c) = true.
Proof.
  intros Hne Hp Hc. unfold apart in *. apply negb_true_iff in Hc.
  apply negb_true_iff. rewrite append_cons. cbn [occurs]. rewrite Hc.
  destruct (but_last_snoc pat Hne) as [l Hl].
  rewrite Hl in Hp at 2.
  rewrite (append_assoc (but_last pat)), <- append_cons in Hp.
  rewrite <- (append_assoc (String a c)) in Hp.
  rewrite prefix_app_long in Hp.
  - rewrite append_cons in Hp. now rewrite Hp.
  - rewrite length_append, length_but_last. cbn [String.length].
    destruct pat; [congruence | cbn [String.length]; lia].
Qed.

Lemma prefix_short (pat u : string) :
  String.length u < String.length pat -> String.prefix pat u = false.
Proof.
  revert u. induction pat as [| a p IH]; intros u H.
  - cbn [String.length] in H. lia.
  - destruct u as [| b u]; [reflexivity |]. cbn [String.length] in H.
    cbn [String.prefix]. destruct (ascii_dec a b); [apply IH; lia | reflexivity].
Qed.

Lemma occurs_short (pat u : string) :
  String.length u < String.length pat -> occurs pat u = false.
Proof.
  induction u as [| b u IH]; intros H.
  - cbn [occurs]. now rewrite prefix_short.
  - cbn [occurs]. rewrite prefix_short by assumption.
    apply IH. cbn [String.length] in H. lia.
Qed.

Lemma pieces_nonempty (k : nat) (pat s : string) : pieces_from k pat s <> [].
Proof.
  revert k. induction s as [| a s IH]; intros k; [discriminate |].
  cbn [pieces_from]. destruct k as [| k]; [| apply IH].
  destruct (String.prefix pat (String a s)); [discriminate |].
  destruct (pieces_from 0 pat s); discriminate.
Qed.

Section Pieces.
Variable pat : string.
Hypothesis pat_nonempty : pat <> EmptyString.

Lemma apart_empty : apart pat EmptyString = true.
Proof.
  unfold apart. rewrite append_nil, occurs_short; [reflexivity |].
  rewrite length_but_last.
  destruct pat; [congruence | cbn [String.length]; lia].
Qed.

Lemma pieces_bounded (n : nat) (s : string) :
  String.length s <= n ->
  join pat (pieces pat s) = s /\ separated pat (pieces pat s) = true.
Proof.
  unfold pieces. revert s. induction n as [| n IH]; intros s Hn.
  - destruct s; [| cbn [String.length] in Hn; lia].
    split; [reflexivity |]. cbn [pieces_from separated].
    now rewrite occurs_short
      by (destruct pat; [congruence | cbn [String.length]; lia]).
  - destruct s as [| a s].
    { split; [reflexivity |]. cbn [pieces_from separated].
      now rewrite occurs_short
        by (destruct pat; [congruence | cbn [String.length]; lia]). }
    cbn [String.length] in Hn. cbn [pieces_from].
    destruct (String.prefix pat (String a s)) eqn:Hp.
    + destruct (prefix_split _ _ Hp) as [t Ht].
      assert (String.length pat - 1 <= String.length s
              /\ String.length t <= n) as [Hlen Ht'].
      { apply (f_equal String.length) in Ht.
        rewrite length_append in Ht. cbn [String.length] in Ht.
        destruct pat; [congruence | cbn [String.length] in *; lia]. }
      assert (pieces_from (String.length pat - 1) pat s = pieces_from 0 pat t)
        as ->.
      { destruct pat as [| p0 p]; [congruence |].
        rewrite append_cons in Ht. injection Ht as _ ->.
        replace (String.length (String p0 p) - 1) with (String.length p)
          by (cbn [String.length]; lia).
        apply pieces_skip. }
      destruct (IH t Ht') as [Hj Hs].
      pose proof (pieces_nonempty 0 pat t) as Hne.
      destruct (pieces_from 0 pat t) as [| c more]; [congruence |].
      split.
      * change (join pat (EmptyString :: c :: more))
          with (EmptyString ++ pat ++ join pat (c :: more)).
        now rewrite Hj, append_nil.
      * change (separated pat (EmptyString :: c :: more))
          with (apart pat EmptyString && separated pat (c :: more)).
        now rewrite apart_empty, Hs.
    + destruct (IH s ltac:(lia)) as [Hj Hs].
      pose proof (pieces_nonempty 0 pat s) as Hne.
      destruct (pieces_from 0 pat s) as [| c more]; [congruence |].
      destruct more as [| c' more].
      * cbn [join] in Hj. subst c. split; [reflexivity |].
        cbn [separated occurs] in *. now rewrite Hp.
      * change (join pat (c :: c' :: more))
          with (c ++ pat ++ join pat (c' :: more)) in Hj.
        change (separated pat (c :: c' :: more))
          with (apart pat c && separated pat (c' :: more)) in Hs.
        apply andb_true_iff in Hs as [Hc Hs].
        split.
        -- change (join pat (String a c :: c' :: more))
             with (String a c ++ pat ++ join pat (c' :: more)).
           now rewrite append_cons, Hj.
        -- change (separated pat (String a c :: c' :: more))
             with (apart pat (String a c) && separated pat (c' :: more)).
           rewrite Hs, andb_true_r.
           apply (apart_cons pat a c (join pat (c' :: more))); try assumption.
           now rewrite Hj.
Qed.

(** Every text is its pieces joined by [pat], and the pieces are
    separated. *)
Lemma pieces_sound (s : string) :
  join pat (pieces pat s) = s /\ separated pat (pieces pat s) = true.
Proof. apply (pieces_bounded (String.length s)). lia. Qed.
End Pieces.

Lemma all_chars_app (p : ascii -> bool) (a b : string) :
  all_chars p (a ++ b) = all_chars p a && all_chars p b.
Proof.
  induction a as [| c a IH]; [reflexivity |].
  rewrite append_cons. cbn [all_chars]. now rewrite IH, andb_assoc.
Qed.

Lemma sed_literal_plain (rhs : string) :
  sed_literal rhs = true -> sed_plain rhs = true.
Proof.
  unfold sed_literal, sed_plain.
  induction rhs as [| c rhs IH]; [reflexivity |].
  cbn [all_chars]. rewrite !andb_true_iff. intuition.
Qed.

Lemma expand_amp_literal (matched rhs : string) :
  sed_literal rhs = true -> expand_amp matched rhs = rhs.
Proof.
  unfold sed_literal.
  induction rhs as [| c rhs IH]; [reflexivity |].
  cbn [all_chars expand_amp]. rewrite !andb_true_iff.
  intros [[_ Hc] H]. apply negb_true_iff in Hc.
  rewrite Hc, (IH H). reflexivity.
Qed.

(** The replacement text the script builds from a literal port. *)
Lemma literal_port_rhs (port : string) :
  sed_literal port = true ->
  sed_plain (port ++ ":8000") = true
  /\ expand_amp mapping (port ++ ":8000") = port ++ ":8000".
Proof.
  intros H.
  assert (sed_literal (port ++ ":8000") = true) as Hl.
  { unfold sed_literal in *. rewrite all_chars_app, H. reflexivity. }
  split; [now apply sed_literal_plain | now apply expand_amp_literal].
Qed.

Lemma mapping_nonempty : mapping <> EmptyString.
Proof. discriminate. Qed.

(** ** Words and arguments *)

Lemma all_chars_and (p q : ascii -> bool) (s : string) :
  all_chars (fun c => p c && q c) s = all_chars p s && all_chars q s.
Proof.
  induction s as [| c s IH]; [reflexivity |].
  cbn [all_chars]. rewrite IH.
  destruct (p c), (q c), (all_chars p s), (all_chars q s); reflexivity.
Qed.

(** A text without blanks is one word. *)
Lemma words_one (s : string) :
  all_chars (fun c => negb (blank c)) s = true ->
  s <> EmptyString ->
  words s = [s].
Proof.
  induction s as [| c s IH]; intros H Hne; [congruence |].
  cbn [all_chars] in H. apply andb_true_iff in H as [Hc Hs].
  apply negb_true_iff in Hc. cbn [words]. rewrite Hc.
  destruct s as [| c' s]; [reflexivity |].
  assert (blank c' = false) as Hc'.
  { cbn [all_chars] in Hs. apply andb_true_iff in Hs as [Hc' _].
    now apply negb_true_iff in Hc'. }
  rewrite Hc', (IH Hs) by discriminate. reflexivity.
Qed.

(** The shell passes a word-safe text on as a single argument. *)
Lemma argv_safe (expansion : gmap string string -> string -> list string)
    (fs : gmap string string) (text : string) :
  word_safe text = true ->
  text <> EmptyString ->
  argv expansion fs text = [text].
Proof.
  unfold word_safe, argv. rewrite all_chars_and.
  intros H Hne. apply andb_true_iff in H as [Hb Hg].
  rewrite (words_one _ Hb Hne). cbn [List.flat_map].
  unfold glob_free. now rewrite Hg.
Qed.

(** The URL of the health probe is word-safe when the port is. *)
Lemma word_safe_url (port : string) :
  word_safe port = true ->
  word_safe ("http://localhost:" ++ port ++ "/") = true.
Proof.
  intros H. unfold word_safe in *.
  rewrite !all_chars_app, H. reflexivity.
Qed.

Lemma tame_port (port : string) :
  tame port = true ->
  sed_plain (port ++ ":8000") = true
  /\ word_safe ("http://localhost:" ++ port ++ "/") = true.
Proof.
  unfold tame. intros H. apply andb_true_iff in H as [Hs Hw].
  split; [| now apply word_safe_url].
  unfold sed_plain in *. rewrite all_chars_app, Hs. reflexivity.
Qed.

(** ** Step 1: tool precondition check *)

(** C4.  When [docker] or [docker-compose] is not installed, the run exits
    with status 1 right after the message that names the missing tool,
    leaves every file as it was, and starts no command other than the
    [command -v] checks: nothing is copied, rewritten, built, started or
    polled. *)
Theorem tool_missing_stops_run (w : World) (args : list string) :
  has_docker w = false \/ has_docker_compose w = false ->
  exit_status (run w args) = 1%N
  /\ final_files (run w args) = files0 w
  /\ (last (events (run w args)) = Some (Echo docker_missing)
      \/ last (events (run w args)) = Some (Echo compose_missing))
  /\ forall c, In (Exec c) (events (run w args)) -> step_of c = Tooling.
Proof.
  intros H.
  destruct w as [hd hc fs0 op fc so pn bd u pp pr cu]; cbn in H.
  destruct hd; [destruct H as [H | H]; [discriminate | subst hc] |];
    sh_eval;
    (split; [reflexivity | split; [reflexivity | split; [auto |]]]);
    intros c Hc; cbn in Hc; intuition (try discriminate);
    match goal with E : Exec _ = Exec c |- _ => injection E as <- end;
    reflexivity.
Qed.

Lemma tool_missing_stops_run_witness :
  (has_docker w_no_compose = false \/ has_docker_compose w_no_compose = false)
  /\ exit_status (run w_no_compose ["9090"]) = 1%N
  /\ final_files (run w_no_compose ["9090"]) = files0 w_no_compose
  /\ (last (events (run w_no_compose ["9090"])) = Some (Echo docker_missing)
      \/ last (events (run w_no_compose ["9090"]))
         = Some (Echo compose_missing))
  /\ forall c, In (Exec c) (events (run w_no_compose ["9090"])) ->
               step_of c = Tooling.
Proof.
  split; [right; reflexivity |].
  apply (tool_missing_stops_run w_no_compose ["9090"]).
  right. reflexivity.
Defined.

(** ** Step 2: configuration resolution *)

(** C2 as stated fails for a parameter that is supplied but empty:
    [./deploy.sh ""] passes a first parameter, yet the port resolves to the
    default and not to the supplied (empty) string. *)
Lemma empty_override_is_ignored :
  [""] !! 0%nat = Some "" /\ PORT (resolve [""]) <> "".
Proof. split; [reflexivity | discriminate]. Qed.

(** C2, amended.  Each of the two settings is the corresponding positional
    parameter when that parameter is supplied and not empty, and the fixed
    default (port 88888, the fixed host name) when it is missing or empty.
    The pair depends on nothing but the first two parameters, whatever the
    world, and it is the pair the run announces in its first lines. *)
Theorem resolve_override_or_default (w : World) (args : list string) :
  PORT (resolve args) =
    match args !! 0%nat with
    | Some (String c p) => String c p
    | _ => "88888"
    end
  /\ DOMAIN (resolve args) =
    match args !! 1%nat with
    | Some (String c d) => String c d
    | _ => "evoagentx.evoagentx.naranja.lucienfc.eu.org"
    end
  /\ take 3 (events (run w args)) =
    [ Echo "🚀 Deploying EvoAgentX...";
      Echo ("📌 Port: " ++ PORT (resolve args));
      Echo ("🌐 Domain: " ++ DOMAIN (resolve args)) ].
Proof.
  split; [| split].
  - unfold resolve, or_default; cbn [PORT].
    destruct (args !! 0%nat) as [[| c p] |]; reflexivity.
  - unfold resolve, or_default; cbn [DOMAIN].
    destruct (args !! 1%nat) as [[| c d] |]; reflexivity.
  - unfold run, deploy; cbv zeta.
    set (k := fun _ : unit => bind (check_tools w) _).
    unfold banner, echo, emit, bind; cbn.
    destruct (k tt (files0 w)) as [tr fs v]; reflexivity.
Qed.

(** ** Step 3: secrets materialization *)

(** C6 as stated fails for a port that turns line 42 into more than one
    substitution.  With the port [1/;w .env], a newline and [#], sed gets
    the script [s/8000:8000/1/;w .env] followed by a comment line, and its
    [w] command overwrites the existing [.env] with the lines of the
    descriptor. *)
Lemma injected_sed_overwrites_secrets :
  files0 w_injected !! secrets = Some "OPENAI_API_KEY=sk-1"
  /\ final_files (run w_injected [injected_port]) !! secrets
     = Some (join "1" sample_chunks)
  /\ final_files (run w_injected [injected_port]) !! secrets
     <> files0 w_injected !! secrets.
Proof. vm_compute. repeat split. discriminate. Qed.

(** C6, amended.  When [.env] exists at the start of a run and the port
    has none of the characters that sed or the shell treat specially
    (slash, backslash, newline, blank, pattern characters), [.env] has the
    same contents at the end: the run starts no copy and no pause, and no
    command it starts may write [.env]. *)
Theorem existing_secrets_untouched
    (w : World) (args : list string) (c : string) :
  tame (PORT (resolve args)) = true ->
  files0 w !! secrets = Some c ->
  final_files (run w args) !! secrets = Some c
  /\ performs Copy (events (run w args)) = false
  /\ performs Pause (events (run w args)) = false
  /\ forall cmd, In (Exec cmd) (events (run w args)) ->
                 may_write cmd secrets = false.
Proof.
  intros Ht. destruct (tame_port _ Ht) as [Hsed Hurl]. clear Ht.
  sh_run argv_safe w (run w args); sh_obs; intros Hc;
    try discriminate; try congruence.
  all: try injection Hc as <-.
  all: rewrite ?lookup_insert_ne by discriminate.
  all: (split; [assumption | split; [reflexivity | split; [reflexivity |]]]).
  all: intros cmd Hin; cbn [In] in Hin.
  all: repeat (destruct Hin as [Hin | Hin];
               [try discriminate Hin; injection Hin as <- |]);
       try contradiction.
  all: unfold may_write;
       try match goal with
           | E : sed_plain ?x = true
             |- context [sed_plain mapping && sed_plain ?y] =>
               change (sed_plain y) with (sed_plain x); rewrite E
           end;
       reflexivity.
Qed.

Lemma existing_secrets_untouched_witness :
  tame (PORT (resolve [])) = true
  /\ files0 w_ready !! secrets = Some "OPENAI_API_KEY=sk-1"
  /\ final_files (run w_ready []) !! secrets = Some "OPENAI_API_KEY=sk-1"
  /\ performs Copy (events (run w_ready [])) = false
  /\ performs Pause (events (run w_ready [])) = false
  /\ forall cmd, In (Exec cmd) (events (run w_ready [])) ->
                 may_write cmd secrets = false.
Proof.
  do 2 (split; [vm_compute; reflexivity |]).
  apply (existing_secrets_untouched w_ready []); vm_compute; reflexivity.
Defined.




(** ** Step 4: configuration rewrite *)

(** C3 as stated fails: with a descriptor that maps 3000:3000 and has no
    "8000:8000" in it, sed changes nothing and succeeds, and the run goes on
    to build and ends with status 0. *)
Lemma unmatched_descriptor_is_accepted :
  files0 w_other_mapping !! descriptor = Some "      - 3000:3000"
  /\ occurs mapping "      - 3000:3000" = false
  /\ final_files (run w_other_mapping []) !! descriptor
     = Some "      - 3000:3000"
  /\ performs Build (events (run w_other_mapping [])) = true
  /\ exit_status (run w_other_mapping []) = 0%N.
Proof. vm_compute. repeat split. Qed.

(** C3, amended.  When the run reaches the rewrite with a port that
    neither sed nor the shell treats specially (no slash, backslash,
    newline, blank or pattern character), and the descriptor does not
    contain "8000:8000", the rewrite is a silent no-op: the descriptor
    keeps its contents, the backup holds the same contents, no error is
    raised and the run goes on to the build. *)
Theorem rewrite_without_match_is_silent
    (w : World) (args : list string) (d : string) :
  tame (PORT (resolve args)) = true ->
  files0 w !! descriptor = Some d ->
  occurs mapping d = false ->
  performs Rewrite (events (run w args)) = true ->
  final_files (run w args) !! descriptor = Some d
  /\ final_files (run w args) !! (descriptor ++ ".bak") = Some d
  /\ performs Build (events (run w args)) = true.
Proof.
  intros Ht. destruct (tame_port _ Ht) as [Hsed Hurl]. clear Ht.
  sh_run argv_safe w (run w args); sh_obs; intros Hd Hocc Hr;
    try discriminate; try congruence.
  all: injection Hd as ->.
  all: rewrite (subst_absent _ _ _ Hocc).
  all: rewrite lookup_insert_eq.
  all: rewrite lookup_insert_ne by discriminate.
  all: rewrite lookup_insert_eq.
  all: repeat split; reflexivity.
Qed.

Lemma rewrite_without_match_is_silent_witness :
  tame (PORT (resolve ["9090"])) = true
  /\ files0 w_other_mapping !! descriptor = Some "      - 3000:3000"
  /\ occurs mapping "      - 3000:3000" = false
  /\ performs Rewrite (events (run w_other_mapping ["9090"])) = true
  /\ final_files (run w_other_mapping ["9090"]) !! descriptor
     = Some "      - 3000:3000"
  /\ final_files (run w_other_mapping ["9090"]) !! (descriptor ++ ".bak")
     = Some "      - 3000:3000"
  /\ performs Build (events (run w_other_mapping ["9090"])) = true.
Proof.
  do 4 (split; [vm_compute; reflexivity |]).
  apply (rewrite_without_match_is_silent w_other_mapping ["9090"]);
    vm_compute; reflexivity.
Defined.



(** C10 as stated fails for a port that sed does not take letter for
    letter: with the port "&" every "8000:8000" becomes "8000:8000:8000",
    not "&:8000". *)
Lemma ampersand_port_is_expanded :
  performs Rewrite (events (run w_ready ["&"])) = true
  /\ final_files (run w_ready ["&"]) !! descriptor
     = Some (join "8000:8000:8000" sample_chunks)
  /\ final_files (run w_ready ["&"]) !! descriptor
     <> Some (join (PORT (resolve ["&"]) ++ ":8000") sample_chunks).
Proof. vm_compute. repeat split. discriminate. Qed.

(** C10, amended.  Every descriptor is its pieces joined by "8000:8000",
    with no further "8000:8000" starting inside a piece.  For a port
    without slash, backslash, newline and ampersand that the shell also
    passes on as one word (no blank, no pattern character), a run that
    reaches the rewrite leaves the same pieces joined by the port followed
    by ":8000": every match, found from left to right without overlap, is
    replaced, not only the first; the old text is kept in the backup.  The
    default port is such a port and its replacement text is "88888:8000",
    so this holds for a run without arguments. *)
Theorem rewrite_replaces_every_mapping
    (w : World) (args : list string) (d : string) :
  sed_literal (PORT (resolve args)) = true ->
  word_safe (PORT (resolve args)) = true ->
  files0 w !! descriptor = Some d ->
  performs Rewrite (events (run w args)) = true ->
  join mapping (pieces mapping d) = d
  /\ separated mapping (pieces mapping d) = true
  /\ final_files (run w args) !! descriptor
     = Some (join (PORT (resolve args) ++ ":8000") (pieces mapping d))
  /\ final_files (run w args) !! (descriptor ++ ".bak") = Some d
  /\ sed_literal (PORT (resolve [])) = true
  /\ word_safe (PORT (resolve [])) = true
  /\ PORT (resolve []) ++ ":8000" = "88888:8000".
Proof.
  intros Hport Hword Hd Hr.
  destruct (literal_port_rhs _ Hport) as [Hplain Hrhs].
  pose proof (word_safe_url _ Hword) as Hurl.
  destruct (pieces_sound mapping mapping_nonempty d) as [Hj Hs].
  pose proof (subst_join mapping (PORT (resolve args) ++ ":8000")
                mapping_nonempty _ Hs) as Hsub.
  rewrite Hj in Hsub.
  split; [exact Hj | split; [exact Hs |]].
  clear Hj Hs Hport Hword. revert Hrhs Hsub Hd Hr.
  sh_run argv_safe w (run w args); sh_obs; intros Hrhs Hsub Hd Hr;
    try discriminate; try congruence.
  all: injection Hd as ->.
  all: rewrite Hrhs, Hsub.
  all: rewrite lookup_insert_eq.
  all: rewrite lookup_insert_ne by discriminate.
  all: rewrite lookup_insert_eq.
  all: repeat split; reflexivity.
Qed.

Lemma rewrite_replaces_every_mapping_witness :
  sed_literal (PORT (resolve [])) = true
  /\ word_safe (PORT (resolve [])) = true
  /\ files0 w_two_mappings !! descriptor = Some "a 8000:8000 b 8000:8000 c"
  /\ performs Rewrite (events (run w_two_mappings [])) = true
  /\ pieces mapping "a 8000:8000 b 8000:8000 c" = ["a "; " b "; " c"]
  /\ final_files (run w_two_mappings []) !! descriptor
     = Some "a 88888:8000 b 88888:8000 c".
Proof.
  do 5 (split; [vm_compute; reflexivity |]).
  pose proof (rewrite_replaces_every_mapping w_two_mappings []
                "a 8000:8000 b 8000:8000 c"
                ltac:(vm_compute; reflexivity)
                ltac:(vm_compute; reflexivity)
                ltac:(vm_compute; reflexivity)
                ltac:(vm_compute; reflexivity)) as H.
  destruct H as (_ & _ & H & _). exact H.
Defined.

(** ** Step 8: readiness poll *)

(** C1 as stated fails in its second half: when the poll finds no "Up" the
    run does exit with status 1, but it stops there and echoes no line with
    a localhost URL. *)
Lemma not_ready_skips_the_report :
  not_ready w_down (run w_down []) = true
  /\ exit_status (run w_down []) = 1%N
  /\ List.filter (occurs "http://localhost") (echoed (events (run w_down [])))
     = [].
Proof. vm_compute. repeat split. Qed.

(** C1, amended.  When the readiness poll finds no "Up", the run exits
    with status 1; the last thing it does is echo the hint to check the
    logs; the report is not started, and none of the access URLs is
    echoed. *)
Theorem not_ready_exits_without_report (w : World) (args : list string) :
  not_ready w (run w args) = true ->
  exit_status (run w args) = 1%N
  /\ last (events (run w args)) = Some (Echo poll_failure)
  /\ performs Listing (events (run w args)) = false
  /\ forall url, In url (access_urls (resolve args)) ->
                 ~ In url (echoed (events (run w args))).
Proof.
  unfold not_ready.
  sh_run argv_safe w (run w args); sh_obs; cbn [andb negb]; intros Hn;
    try match goal with
        | E : occurs "Up" _ = _ |- _ => rewrite E in Hn
        end;
    try discriminate.
  all: split; [reflexivity | split; [reflexivity | split; [reflexivity |]]].
  all: intros url Hu Hin; cbn [In] in Hu, Hin.
  all: cbv [String.append] in Hu, Hin.
  all: intuition (subst; discriminate).
Qed.

Lemma not_ready_exits_without_report_witness :
  not_ready w_down (run w_down ["9090"]) = true
  /\ exit_status (run w_down ["9090"]) = 1%N
  /\ last (events (run w_down ["9090"])) = Some (Echo poll_failure)
  /\ performs Listing (events (run w_down ["9090"])) = false
  /\ forall url, In url (access_urls (resolve ["9090"])) ->
                 ~ In url (echoed (events (run w_down ["9090"]))).
Proof.
  split; [vm_compute; reflexivity |].
  apply (not_ready_exits_without_report w_down ["9090"]).
  vm_compute; reflexivity.
Defined.

(** ** Step 9: report and health probe *)

(** C8 as stated fails for a port with blanks.  Line 98 expands the port
    without quotes, so the port "18080 -o out.txt -H x:" makes the command
    [curl -f http://localhost:18080 -o out.txt -H x:/]: a probe that
    succeeds saves the answer in out.txt, a probe that fails creates no
    file.  Both runs end with status 0, and their files differ. *)
Lemma probe_outcome_reaches_the_files :
  In (Exec (Curl ["http://localhost:18080"; "-o"; "out.txt"; "-H"; "x:/"]))
     (events (run (with_curl w_ready {| ok := true; out := "" |}
                     (fun fs => <["out.txt" := "pong"]> fs)) [split_port]))
  /\ exit_status (run (with_curl w_ready {| ok := true; out := "" |}
                         (fun fs => <["out.txt" := "pong"]> fs)) [split_port])
     = 0%N
  /\ exit_status (run (with_curl w_ready {| ok := false; out := "" |}
                         (fun fs => fs)) [split_port])
     = 0%N
  /\ final_files (run (with_curl w_ready {| ok := true; out := "" |}
                         (fun fs => <["out.txt" := "pong"]> fs)) [split_port])
       !! "out.txt" = Some "pong"
  /\ final_files (run (with_curl w_ready {| ok := false; out := "" |}
                         (fun fs => fs)) [split_port])
       !! "out.txt" = None.
Proof.
  vm_compute. split; [| repeat split].
  repeat (first [left; reflexivity | right]).
Qed.

(** C8, amended.  A run that reaches the health probe ends with status 0
    whatever the probe answers and whatever it writes.  Compared with the
    same run in which the probe succeeds, the run in which it fails ends
    with the same status, and its events are the same up to the probe's
    own output, followed by the warning line.  When the port has no blank
    and no pattern character, so that curl gets the URL as its only
    argument, the two runs also leave the same files. *)
Theorem probe_failure_is_not_fatal
    (w : World) (args : list string) (good bad : string)
    (saved dropped : gmap string string -> gmap string string) :
  performs Probe (events (run w args)) = true ->
  exit_status (run w args) = 0%N
  /\ exit_status
       (run (with_curl w {| ok := false; out := bad |} dropped) args) = 0%N
  /\ exit_status
       (run (with_curl w {| ok := true; out := good |} saved) args) = 0%N
  /\ (exists pre : list Event,
        events (run (with_curl w {| ok := true; out := good |} saved) args)
          = (pre ++ [Output good])%list
        /\ events (run (with_curl w {| ok := false; out := bad |} dropped)
                     args)
          = (pre ++ [Output bad; Echo health_warning])%list)
  /\ (word_safe (PORT (resolve args)) = true ->
      final_files
        (run (with_curl w {| ok := false; out := bad |} dropped) args)
      = final_files
          (run (with_curl w {| ok := true; out := good |} saved) args)).
Proof.
  assert (word_safe (PORT (resolve args)) = true ->
          word_safe ("http://localhost:" ++ PORT (resolve args) ++ "/")
          = true) as Hurl by apply word_safe_url.
  revert Hurl. generalize (word_safe (PORT (resolve args))) as safe.
  intros safe Hurl.
  remember (run (with_curl w {| ok := false; out := bad |} dropped) args)
    as rf eqn:Hf.
  remember (run (with_curl w {| ok := true; out := good |} saved) args)
    as rs eqn:Hs.
  revert Hf Hs.
  sh_run argv_safe w (run w args); intros -> ->;
    cbn [exit_status final_files events];
    sh_obs; intros Hp; try discriminate.
  all: do 3 (split; [reflexivity |]).
  all: (split;
        [ match goal with
          | |- exists pre, ?l = _ /\ _ => exists (removelast l)
          end; split; reflexivity
        | intros Hs; try reflexivity;
          specialize (Hurl Hs); congruence ]).
Qed.

Lemma probe_failure_is_not_fatal_witness :
  performs Probe (events (run w_ready [])) = true
  /\ exit_status
       (run (with_curl w_ready {| ok := false; out := "" |} (fun fs => fs))
          []) = 0%N
  /\ final_files
       (run (with_curl w_ready {| ok := false; out := "" |} (fun fs => fs))
          [])
     = final_files
         (run (with_curl w_ready {| ok := true; out := "ok" |}
                 (fun fs => <["out.txt" := "pong"]> fs)) []).
Proof.
  split; [vm_compute; reflexivity |].
  pose proof (probe_failure_is_not_fatal w_ready [] "ok" ""
                (fun fs => <["out.txt" := "pong"]> fs) (fun fs => fs)
                ltac:(vm_compute; reflexivity)) as H.
  destruct H as (_ & H1 & _ & _ & H2).
  split; [exact H1 | apply H2; vm_compute; reflexivity].
Defined.

(** ** The domain argument *)



(** * Further properties of the script *)

(** ** The sequence as a whole *)




(** ** Failures of the backend *)

(** X3.  When [docker-compose build] fails, the run ends at once with the
    exit code of that command: the build's output is the last event, and
    neither the start nor the poll happens.  Nothing is rolled back: for a
    port that sed takes letter for letter the descriptor stays rewritten
    and the backup holds the original text. *)
Theorem build_failure_stops_run
    (w : World) (args : list string) (d : string) :
  sed_literal (PORT (resolve args)) = true ->
  files0 w !! descriptor = Some d ->
  performs Build (events (run w args)) = true ->
  ok (build w) = false ->
  exit_status (run w args) = Npos (failure_code w ComposeBuild)
  /\ last (events (run w args))
     = Some (Output (out (build w)))
  /\ performs Start (events (run w args)) = false
  /\ performs Poll (events (run w args)) = false
  /\ final_files (run w args) !! descriptor
     = Some (join (PORT (resolve args) ++ ":8000") (pieces mapping d))
  /\ final_files (run w args) !! (descriptor ++ ".bak") = Some d.
Proof.
  intros Hport Hd Hb Hok.
  destruct (literal_port_rhs _ Hport) as [Hplain Hrhs].
  destruct (pieces_sound mapping mapping_nonempty d) as [Hj Hs].
  pose proof (subst_join mapping (PORT (resolve args) ++ ":8000")
                mapping_nonempty _ Hs) as Hsub.
  rewrite Hj in Hsub. clear Hj Hs Hport.
  revert Hplain Hrhs Hsub Hd Hb Hok.
  sh_run argv_safe w (run w args); sh_obs; intros Hplain Hrhs Hsub Hd Hb Hok;
    try discriminate; try congruence.
  all: injection Hd as ->.
  all: rewrite Hrhs, Hsub.
  all: rewrite lookup_insert_eq.
  all: rewrite lookup_insert_ne by discriminate.
  all: rewrite lookup_insert_eq.
  all: repeat split; reflexivity.
Qed.

Lemma build_failure_stops_run_witness :
  sed_literal (PORT (resolve ["9090"])) = true
  /\ files0 (failing w_ready Build) !! descriptor = Some sample_descriptor
  /\ performs Build (events (run (failing w_ready Build) ["9090"])) = true
  /\ ok (build (failing w_ready Build)) = false
  /\ exit_status (run (failing w_ready Build) ["9090"]) = 1%N
  /\ performs Start (events (run (failing w_ready Build) ["9090"])) = false
  /\ final_files (run (failing w_ready Build) ["9090"]) !! descriptor
     = Some (join "9090:8000" sample_chunks).
Proof.
  do 4 (split; [vm_compute; reflexivity |]).
  pose proof (build_failure_stops_run (failing w_ready Build) ["9090"]
                sample_descriptor
                ltac:(vm_compute; reflexivity) ltac:(vm_compute; reflexivity)
                ltac:(vm_compute; reflexivity) ltac:(vm_compute; reflexivity))
    as H.
  destruct H as (He & _ & Hs & _ & Hd & _).
  split; [exact He | split; [exact Hs | exact Hd]].
Defined.

(** X4.  When [docker-compose up -d] fails, the run ends at once with the
    exit code of that command: there is no settle delay and no readiness
    poll. *)
Theorem up_failure_stops_run (w : World) (args : list string) :
  performs Start (events (run w args)) = true ->
  ok (up w) = false ->
  exit_status (run w args) = Npos (failure_code w ComposeUp)
  /\ last (events (run w args))
     = Some (Output (out (up w)))
  /\ performs Settle (events (run w args)) = false
  /\ performs Poll (events (run w args)) = false.
Proof.
  sh_run argv_safe w (run w args); sh_obs; intros Hb Hok; try discriminate.
  all: repeat split; reflexivity.
Qed.

Lemma up_failure_stops_run_witness :
  performs Start (events (run (failing w_ready Start) [])) = true
  /\ ok (up (failing w_ready Start)) = false
  /\ exit_status (run (failing w_ready Start) []) = 1%N
  /\ performs Settle (events (run (failing w_ready Start) [])) = false.
Proof.
  do 2 (split; [vm_compute; reflexivity |]).
  pose proof (up_failure_stops_run (failing w_ready Start) []
                ltac:(vm_compute; reflexivity) ltac:(vm_compute; reflexivity))
    as H.
  destruct H as (He & _ & Hs & _).
  split; [exact He | exact Hs].
Defined.

(** X10.  When the [docker-compose ps] of the report fails, the run ends
    with the exit code of that command after it has echoed "Deployment
    Complete!": no access URL is echoed and the health probe is not
    started. *)
Theorem listing_failure_after_banner (w : World) (args : list string) :
  performs Listing (events (run w args)) = true ->
  ok (ps_report w) = false ->
  exit_status (run w args) = Npos (failure_code w ComposePs)
  /\ In (Echo "🎉 EvoAgentX Deployment Complete!") (events (run w args))
  /\ performs Probe (events (run w args)) = false
  /\ forall url, In url (access_urls (resolve args)) ->
                 ~ In url (echoed (events (run w args))).
Proof.
  sh_run argv_safe w (run w args); sh_obs; intros Hb Hok; try discriminate.
  all: split; [reflexivity
              | split; [cbv [In]; tauto | split; [reflexivity |]]].
  all: intros url Hu Hin; cbv [In] in Hu, Hin.
  all: cbv [String.append] in Hu, Hin.
  all: intuition (subst; discriminate).
Qed.

Lemma listing_failure_after_banner_witness :
  performs Listing (events (run (failing w_ready Listing) [])) = true
  /\ ok (ps_report (failing w_ready Listing)) = false
  /\ exit_status (run (failing w_ready Listing) []) = 1%N
  /\ performs Probe (events (run (failing w_ready Listing) [])) = false.
Proof.
  do 2 (split; [vm_compute; reflexivity |]).
  pose proof (listing_failure_after_banner (failing w_ready Listing) []
                ltac:(vm_compute; reflexivity) ltac:(vm_compute; reflexivity))
    as H.
  destruct H as (He & _ & Hp & _).
  split; [exact He | exact Hp].
Defined.

(** ** The rewrite and the files *)


(** What a successful rewrite leaves, for a replacement text without slash,
    backslash and newline and a URL that the shell passes on as one word. *)
Lemma rewrite_result (w : World) (args : list string) (d : string) :
  sed_plain (PORT (resolve args) ++ ":8000") = true ->
  word_safe ("http://localhost:" ++ PORT (resolve args) ++ "/") = true ->
  files0 w !! descriptor = Some d ->
  performs Rewrite (events (run w args)) = true ->
  final_files (run w args) !! descriptor
    = Some (subst_all mapping
              (expand_amp mapping (PORT (resolve args) ++ ":8000")) d)
  /\ final_files (run w args) !! (descriptor ++ ".bak") = Some d
  /\ performs Build (events (run w args)) = true.
Proof.
  intros Hplain Hurl.
  sh_run argv_safe w (run w args); sh_obs; intros Hd Hr;
    try discriminate; try congruence.
  all: injection Hd as ->.
  all: rewrite lookup_insert_eq.
  all: rewrite lookup_insert_ne by discriminate.
  all: rewrite lookup_insert_eq.
  all: repeat split; reflexivity.
Qed.

(** X5.  When [docker-compose.yml] does not exist and the port has no
    slash, backslash or newline, a run that reaches the rewrite ends there
    with the exit code of sed: nothing is built, and neither the
    descriptor nor a backup is created. *)
Theorem missing_descriptor_stops_run (w : World) (args : list string) :
  sed_plain (PORT (resolve args)) = true ->
  performs Rewrite (events (run w args)) = true ->
  files0 w !! descriptor = None ->
  exit_status (run w args)
    = Npos (failure_code w
              (SedInPlace mapping (PORT (resolve args) ++ ":8000")
                 descriptor))
  /\ last (events (run w args))
     = Some (Exec (SedInPlace mapping (PORT (resolve args) ++ ":8000")
                     descriptor))
  /\ performs Build (events (run w args)) = false
  /\ final_files (run w args) !! descriptor = None
  /\ final_files (run w args) !! (descriptor ++ ".bak")
     = files0 w !! (descriptor ++ ".bak").
Proof.
  intros Hport.
  assert (sed_plain (PORT (resolve args) ++ ":8000") = true) as Hplain.
  { unfold sed_plain in *. rewrite all_chars_app, Hport. reflexivity. }
  clear Hport.
  sh_run argv_safe w (run w args); sh_obs; intros Hr Hd;
    try discriminate; try congruence.
  all: rewrite ?lookup_insert_ne by discriminate.
  all: repeat split; try reflexivity; assumption.
Qed.

Lemma missing_descriptor_stops_run_witness :
  sed_plain (PORT (resolve [])) = true
  /\ performs Rewrite (events (run w_no_descriptor [])) = true
  /\ files0 w_no_descriptor !! descriptor = None
  /\ exit_status (run w_no_descriptor []) = 2%N
  /\ performs Build (events (run w_no_descriptor [])) = false
  /\ final_files (run w_no_descriptor []) !! (descriptor ++ ".bak") = None.
Proof.
  do 3 (split; [vm_compute; reflexivity |]).
  pose proof (missing_descriptor_stops_run w_no_descriptor []
                ltac:(vm_compute; reflexivity) ltac:(vm_compute; reflexivity)
                ltac:(vm_compute; reflexivity)) as H.
  destruct H as (He & _ & Hb & _ & Hk).
  split; [exact He | split; [exact Hb | exact Hk]].
Defined.

(** X6.  With a port that neither sed nor the shell treats specially, a
    run that goes on to the build has found a descriptor, and
    [docker-compose.yml.bak] holds the text the descriptor had before the
    run. *)
Theorem backup_keeps_original (w : World) (args : list string) :
  tame (PORT (resolve args)) = true ->
  performs Build (events (run w args)) = true ->
  exists d, files0 w !! descriptor = Some d
            /\ final_files (run w args) !! (descriptor ++ ".bak") = Some d.
Proof.
  intros Ht. destruct (tame_port _ Ht) as [Hsed Hurl]. clear Ht.
  sh_run argv_safe w (run w args); sh_obs; intros Hb;
    try discriminate; try congruence.
  all: eexists; split; [reflexivity |].
  all: rewrite lookup_insert_ne by discriminate.
  all: apply lookup_insert_eq.
Qed.

Lemma backup_keeps_original_witness :
  tame (PORT (resolve ["9090"])) = true
  /\ performs Build (events (run w_ready ["9090"])) = true
  /\ final_files (run w_ready ["9090"]) !! (descriptor ++ ".bak")
     = Some sample_descriptor.
Proof.
  do 2 (split; [vm_compute; reflexivity |]).
  destruct (backup_keeps_original w_ready ["9090"]
              ltac:(vm_compute; reflexivity)
              ltac:(vm_compute; reflexivity)) as (d & Hd & Hb).
  rewrite Hb. rewrite <- Hd. vm_compute. reflexivity.
Defined.

(** X7.  With a port that neither sed nor the shell treats specially, a
    run changes no file other than [.env], [docker-compose.yml] and
    [docker-compose.yml.bak]; in particular the template is never
    modified and nothing is deleted. *)
Theorem other_files_untouched
    (w : World) (args : list string) (path : string) :
  tame (PORT (resolve args)) = true ->
  path <> secrets ->
  path <> descriptor ->
  path <> descriptor ++ ".bak" ->
  final_files (run w args) !! path = files0 w !! path.
Proof.
  intros Ht. destruct (tame_port _ Ht) as [Hsed Hurl]. clear Ht.
  unfold secrets, descriptor.
  sh_run argv_safe w (run w args); intros H1 H2 H3; try congruence.
  all: rewrite ?lookup_insert_ne by congruence.
  all: reflexivity.
Qed.

Lemma other_files_untouched_witness :
  tame (PORT (resolve [])) = true
  /\ template <> secrets
  /\ template <> descriptor
  /\ template <> descriptor ++ ".bak"
  /\ final_files (run w_first_run []) !! template
     = files0 w_first_run !! template.
Proof.
  split; [vm_compute; reflexivity |].
  do 3 (split; [discriminate |]).
  apply (other_files_untouched w_first_run [] template);
    [vm_compute; reflexivity | discriminate ..].
Defined.

(** X11.  A second run cannot change the port once the first one has
    rewritten the descriptor.  Both ports are passed on by the shell as
    one word; if the first run used a port that sed takes letter for
    letter and its result contains no "8000:8000" any more, a later run
    with another port (without slash, backslash and newline) announces
    that port but leaves the descriptor as the first run wrote it, and
    overwrites the backup with that same text, so that the original
    descriptor is no longer kept. *)
Theorem second_port_is_ignored
    (w1 w2 : World) (args1 args2 : list string) (d : string) :
  sed_literal (PORT (resolve args1)) = true ->
  word_safe (PORT (resolve args1)) = true ->
  sed_plain (PORT (resolve args2)) = true ->
  word_safe (PORT (resolve args2)) = true ->
  files0 w1 !! descriptor = Some d ->
  performs Rewrite (events (run w1 args1)) = true ->
  occurs mapping (join (PORT (resolve args1) ++ ":8000") (pieces mapping d))
    = false ->
  files0 w2 = final_files (run w1 args1) ->
  performs Rewrite (events (run w2 args2)) = true ->
  final_files (run w2 args2) !! descriptor
    = Some (join (PORT (resolve args1) ++ ":8000") (pieces mapping d))
  /\ final_files (run w2 args2) !! (descriptor ++ ".bak")
    = Some (join (PORT (resolve args1) ++ ":8000") (pieces mapping d))
  /\ In (Echo ("⚙️  Configuring application to run on port "
               ++ PORT (resolve args2) ++ "..."))
        (events (run w2 args2)).
Proof.
  intros Hlit Hw1 Hplain2 Hw2 Hd Hr1 Hocc Hf Hr2.
  destruct (literal_port_rhs _ Hlit) as [Hplain1 Hrhs].
  destruct (pieces_sound mapping mapping_nonempty d) as [Hj Hs].
  pose proof (subst_join mapping (PORT (resolve args1) ++ ":8000")
                mapping_nonempty _ Hs) as Hsub.
  rewrite Hj in Hsub.
  destruct (rewrite_result w1 args1 d Hplain1 (word_safe_url _ Hw1) Hd Hr1)
    as (Hd1 & _ & _).
  rewrite Hrhs, Hsub in Hd1. rewrite <- Hf in Hd1.
  assert (sed_plain (PORT (resolve args2) ++ ":8000") = true) as Hp2.
  { unfold sed_plain in *. rewrite all_chars_app, Hplain2. reflexivity. }
  destruct (rewrite_result w2 args2 _ Hp2 (word_safe_url _ Hw2) Hd1 Hr2)
    as (Hd2 & Hb2 & _).
  rewrite (subst_absent _ _ _ Hocc) in Hd2.
  split; [exact Hd2 | split; [exact Hb2 |]].
  clear - Hr2. revert Hr2.
  sh_run argv_safe w2 (run w2 args2); sh_obs; intros Hr; try discriminate.
  all: sh_in.
Qed.

Lemma second_port_is_ignored_witness :
  sed_literal (PORT (resolve ["9090"])) = true
  /\ word_safe (PORT (resolve ["9090"])) = true
  /\ sed_plain (PORT (resolve ["7070"])) = true
  /\ word_safe (PORT (resolve ["7070"])) = true
  /\ files0 w_ready !! descriptor = Some sample_descriptor
  /\ occurs mapping (join "9090:8000" sample_chunks) = false
  /\ final_files (run (after w_ready (run w_ready ["9090"])) ["7070"])
       !! descriptor = Some (join "9090:8000" sample_chunks)
  /\ final_files (run (after w_ready (run w_ready ["9090"])) ["7070"])
       !! (descriptor ++ ".bak") = Some (join "9090:8000" sample_chunks).
Proof.
  do 6 (split; [vm_compute; reflexivity |]).
  pose proof (second_port_is_ignored w_ready
                (after w_ready (run w_ready ["9090"])) ["9090"] ["7070"]
                sample_descriptor
                ltac:(vm_compute; reflexivity) ltac:(vm_compute; reflexivity)
                ltac:(vm_compute; reflexivity) ltac:(vm_compute; reflexivity)
                ltac:(vm_compute; reflexivity) ltac:(vm_compute; reflexivity)
                ltac:(vm_compute; reflexivity) ltac:(reflexivity)
                ltac:(vm_compute; reflexivity)) as H.
  destruct H as (Hd & Hb & _).
  split; [exact Hd | exact Hb].
Defined.

(** ** The secrets gate *)

(** X8.  When the operator does not confirm at the prompt, the run ends
    there, with status 130 after Ctrl+C and with status 1 when the input is
    closed.  By then [.env] has been created from the template; no other
    file has changed and the descriptor has not been rewritten. *)
Theorem declined_pause_stops_run
    (w : World) (args : list string) (c : string) :
  has_docker w = true ->
  has_docker_compose w = true ->
  files0 w !! secrets = None ->
  files0 w !! template = Some c ->
  operator w <> PressesEnter ->
  exit_status (run w args)
    = (match operator w with PressesCtrlC => 130 | _ => 1 end)%N
  /\ last (events (run w args)) = Some (Exec (ReadP pause_prompt))
  /\ final_files (run w args) = <[secrets := c]> (files0 w)
  /\ performs Rewrite (events (run w args)) = false.
Proof.
  sh_run argv_safe w (run w args); sh_obs; intros Hd Hc He Ht Hop;
    try discriminate; try congruence.
  all: injection Ht as ->.
  all: repeat split; reflexivity.
Qed.

Lemma declined_pause_stops_run_witness :
  has_docker (with_operator w_first_run ClosesInput) = true
  /\ has_docker_compose (with_operator w_first_run ClosesInput) = true
  /\ files0 (with_operator w_first_run ClosesInput) !! secrets = None
  /\ files0 (with_operator w_first_run ClosesInput) !! template
     = Some "OPENAI_API_KEY="
  /\ operator (with_operator w_first_run ClosesInput) <> PressesEnter
  /\ exit_status (run (with_operator w_first_run ClosesInput) []) = 1%N
  /\ performs Rewrite (events (run (with_operator w_first_run ClosesInput) []))
     = false.
Proof.
  do 4 (split; [vm_compute; reflexivity |]).
  split; [discriminate |].
  pose proof (declined_pause_stops_run
                (with_operator w_first_run ClosesInput) [] "OPENAI_API_KEY="
                ltac:(vm_compute; reflexivity) ltac:(vm_compute; reflexivity)
                ltac:(vm_compute; reflexivity) ltac:(vm_compute; reflexivity)
                ltac:(discriminate)) as H.
  destruct H as (He & _ & _ & Hr).
  split; [exact He | exact Hr].
Defined.



(** ** The readiness poll *)

Lemma occurs_app (needle a b : string) :
  occurs needle (a ++ needle ++ b) = true.
Proof.
  induction a as [| x a IH].
  - rewrite append_nil.
    destruct (needle ++ b) eqn:E; cbn [occurs];
      rewrite <- E, prefix_app; reflexivity.
  - rewrite append_cons. cbn [occurs]. rewrite IH.
    now destruct (String.prefix needle _).
Qed.

Lemma occurs_split (needle s : string) :
  occurs needle s = true -> exists a b, s = a ++ needle ++ b.
Proof.
  induction s as [| x s IH]; cbn [occurs].
  - destruct (String.prefix needle EmptyString) eqn:E; [| discriminate].
    intros _. destruct (prefix_split _ _ E) as [t Ht].
    exists EmptyString, t. exact Ht.
  - destruct (String.prefix needle (String x s)) eqn:E.
    + intros _. destruct (prefix_split _ _ E) as [t Ht].
      exists EmptyString, t. exact Ht.
    + intros H. destruct (IH H) as (a & b & ->).
      exists (String x a), b. reflexivity.
Qed.

(** X12.  The readiness poll is a plain substring test on everything
    [docker-compose ps] prints: a run that makes the poll goes on to the
    report exactly when the two letters "Up" occur somewhere in that
    output.  One service that is up is enough, whatever the state of the
    others. *)
Theorem ready_iff_up_somewhere (w : World) (args : list string) :
  performs Poll (events (run w args)) = true ->
  performs Listing (events (run w args)) = true
  <-> exists a b, out (ps_poll w) = a ++ "Up" ++ b.
Proof.
  sh_run argv_safe w (run w args); sh_obs; intros Hp; try discriminate.
  all: split; [ intros Hl; try discriminate; apply occurs_split; assumption
              | intros (a & b & E); try reflexivity ].
  all: match goal with H : occurs "Up" _ = false |- _ =>
         rewrite E, occurs_app in H; discriminate end.
Qed.

Lemma ready_iff_up_somewhere_witness :
  performs Poll (events (run w_partly_up [])) = true
  /\ out (ps_poll w_partly_up)
     = ("evoagentx-mongo   Exit 1" ++ nl ++ "evoagentx-app   ") ++ "Up" ++ ""
  /\ performs Listing (events (run w_partly_up [])) = true.
Proof.
  do 2 (split; [vm_compute; reflexivity |]).
  apply (ready_iff_up_somewhere w_partly_up []
           ltac:(vm_compute; reflexivity)).
  exists ("evoagentx-mongo   Exit 1" ++ nl ++ "evoagentx-app   "), "".
  vm_compute. reflexivity.
Defined.
